(** * brawlstars.js: the request layer of [src/Client.js]

    A shallow embedding of the [Client] class of brawlstars.js and of the
    parts of JavaScript it relies on (loose truthiness, [isNaN], property
    access, promises), followed by the properties of the request layer:
    argument checks that fail before the network is touched, the shape of
    the outbound request, the mapping of response bodies to [Player] and
    [Club] objects and the propagation of transport failures. *)

From Stdlib Require Import ZArith NArith Ascii String.
From stdpp Require Import base gmap strings list fin_maps.

Local Open Scope string_scope.
Local Open Scope list_scope.

(** ** JavaScript values *)

Module Js.

(** A JavaScript number.  Only two facts about a number are observed by
    the client, whether it is [NaN] and whether it is a zero, so a finite
    number is kept as sign, mantissa and binary exponent:
    [Finite s m e] stands for [(-1)^s * m * 2^e], and both zeros have
    mantissa [0]. *)
Inductive Number :=
| NaN
| Infinity (negative : bool)
| Finite (negative : bool) (mantissa : N) (exponent : Z).

Definition of_Z (z : Z) : Number := Finite (z <? 0)%Z (Z.abs_N z) 0.

Definition is_NaN (n : Number) : bool :=
  match n with NaN => true | _ => false end.

Definition is_zero (n : Number) : bool :=
  match n with Finite _ m _ => (m =? 0)%N | _ => false end.

(** The values that reach the client: primitives, arrays and plain data
    objects (what [JSON.parse] produces, plus [undefined]).  Strings are
    sequences of code units below 256.  Symbols, BigInts and functions, and
    so objects with methods or accessors of their own, are not modelled:
    every property of an object is a data property. *)
#[warnings="-register-all"]
Inductive Val :=
| Undefined
| Null
| Bool (b : bool)
| Num (n : Number)
| Str (s : string)
| Arr (items : list Val)
| Obj (props : list (string * Val)).

(** What [new Error(msg)] and [new TypeError(msg)] build.  The message of
    a [TypeError] raised by the engine itself differs between engines; the
    texts used below for those are V8's wording in outline. *)
Inductive Exn :=
| Error (message : string)
| TypeError (message : string).

(** The result of evaluating an expression: a value or a thrown
    exception. *)
Inductive Completion (A : Type) :=
| Return (a : A)
| Throw (e : Exn).
Arguments Return {A} a.
Arguments Throw {A} e.

(** A settled promise. *)
Inductive Promise (A : Type) :=
| Resolved (a : A)
| Rejected (e : Exn).
Arguments Resolved {A} a.
Arguments Rejected {A} e.

(** [Promise.reject(e)]. *)
Definition reject {A} (e : Exn) : Promise A := Rejected e.

(** [p.then(f)] with a single callback that returns a plain value or
    throws: a rejection of [p] passes through untouched, an exception in
    [f] rejects the new promise. *)
Definition then_ {A B} (p : Promise A) (f : A -> Completion B) : Promise B :=
  match p with
  | Resolved a =>
      match f a with
      | Return b => Resolved b
      | Throw e => Rejected e
      end
  | Rejected e => Rejected e
  end.

(** ToBoolean. *)
Definition truthy (v : Val) : bool :=
  match v with
  | Undefined | Null => false
  | Bool b => b
  | Num n => negb (is_NaN n || is_zero n)
  | Str s => negb (String.eqb s "")
  | Arr _ | Obj _ => true
  end.

(** *** StringToNumber: which strings denote a number *)

Definition code (c : ascii) : nat := nat_of_ascii c.

Definition between (lo hi : nat) (c : ascii) : bool :=
  Nat.leb lo (code c) && Nat.leb (code c) hi.

Definition is_digit : ascii -> bool := between 48 57.

Definition is_hex_digit (c : ascii) : bool :=
  is_digit c || between 65 70 c || between 97 102 c.

Definition is_octal_digit : ascii -> bool := between 48 55.

Definition is_binary_digit : ascii -> bool := between 48 49.

(** WhiteSpace and LineTerminator below 256: TAB, LF, VT, FF, CR, SP and
    NBSP. *)
Definition is_space (c : ascii) : bool :=
  between 9 13 c || Nat.eqb (code c) 32 || Nat.eqb (code c) 160.

Fixpoint drop_while (p : ascii -> bool) (l : list ascii) : list ascii :=
  match l with
  | c :: r => if p c then drop_while p r else l
  | [] => []
  end.

Fixpoint count_while (p : ascii -> bool) (l : list ascii) : nat :=
  match l with
  | c :: r => if p c then S (count_while p r) else 0
  | [] => 0
  end.

Definition trim (l : list ascii) : list ascii :=
  rev (drop_while is_space (rev (drop_while is_space l))).

Definition nonempty_all (p : ascii -> bool) (l : list ascii) : bool :=
  match l with [] => false | _ => forallb p l end.

Definition is_sign (c : ascii) : bool :=
  Ascii.eqb c "+" || Ascii.eqb c "-".

Definition drop_sign (l : list ascii) : list ascii :=
  match l with
  | c :: r => if is_sign c then r else l
  | [] => []
  end.

(** ExponentPart, or nothing. *)
Definition exponent_opt (l : list ascii) : bool :=
  match l with
  | [] => true
  | c :: r =>
      (Ascii.eqb c "e" || Ascii.eqb c "E")
      && nonempty_all is_digit (drop_sign r)
  end.

(** StrUnsignedDecimalLiteral. *)
Definition unsigned_decimal (l : list ascii) : bool :=
  if String.eqb (string_of_list_ascii l) "Infinity" then true
  else
    let int_digits := count_while is_digit l in
    match drop_while is_digit l with
    | "."%char :: r =>
        let frac_digits := count_while is_digit r in
        negb (Nat.eqb (int_digits + frac_digits) 0)
        && exponent_opt (drop_while is_digit r)
    | rest =>
        negb (Nat.eqb int_digits 0) && exponent_opt rest
    end.

(** StrNumericLiteral: a signed decimal literal, or an unsigned binary,
    octal or hexadecimal integer. *)
Definition numeric_literal_chars (l : list ascii) : bool :=
  match l with
  | "0"%char :: x :: r =>
      if Ascii.eqb x "x" || Ascii.eqb x "X" then nonempty_all is_hex_digit r
      else if Ascii.eqb x "o" || Ascii.eqb x "O" then nonempty_all is_octal_digit r
      else if Ascii.eqb x "b" || Ascii.eqb x "B" then nonempty_all is_binary_digit r
      else unsigned_decimal l
  | _ => unsigned_decimal (drop_sign l)
  end.

(** StringNumericLiteral: white space around nothing (the number 0) or
    around one numeric literal.  [true] exactly when [Number(s)] is not
    [NaN]. *)
Definition numeric_string (s : string) : bool :=
  match trim (list_ascii_of_string s) with
  | [] => true
  | l => numeric_literal_chars l
  end.

(** Whether the text of [v] as an array element denotes a number: what
    decides [Number([v])].  [Array.prototype.join] prints [undefined] and
    [null] as the empty string, a nested array by joining it with commas
    and a plain object as ["[object Object]"]; the text of a number other
    than [NaN] is a numeric literal again. *)
Fixpoint element_text_numeric (v : Val) : bool :=
  match v with
  | Undefined | Null => true
  | Bool _ => false
  | Num n => negb (is_NaN n)
  | Str s => numeric_string s
  | Arr [] => true
  | Arr [x] => element_text_numeric x
  | Arr _ => false
  | Obj _ => false
  end.

(** Whether [Number(v)] is [NaN], for a [v] that converts to a number. *)
Definition number_is_NaN (v : Val) : bool :=
  match v with
  | Undefined => true
  | Null | Bool _ => false
  | Num n => is_NaN n
  | Str s => negb (numeric_string s)
  | Arr _ | Obj _ => negb (element_text_numeric v)
  end.

(** *** Property access *)

Fixpoint assoc (k : string) (props : list (string * Val)) : option Val :=
  match props with
  | (k', v) :: r => if String.eqb k k' then Some v else assoc k r
  | [] => None
  end.

(** Whether converting [v] to a primitive throws.  A plain object with an
    own [toString] property, which as data is not callable, has no way
    left to a primitive: [Object.prototype.valueOf] returns the object
    itself.  An array is converted by joining the texts of its elements, so
    it throws when one of them does; [undefined] and [null] elements are
    printed without conversion. *)
Fixpoint to_primitive_throws (v : Val) : bool :=
  match v with
  | Obj props => match assoc "toString" props with Some _ => true | None => false end
  | Arr items => existsb to_primitive_throws items
  | _ => false
  end.

(** The global [isNaN(v)]: a [TypeError] when [v] has no primitive value,
    otherwise whether [Number(v)] is [NaN]. *)
Definition isNaN (v : Val) : Completion bool :=
  if to_primitive_throws v
  then Throw (TypeError "Cannot convert object to primitive value")
  else Return (number_is_NaN v).

(** Binding [k] in a parameter pattern [{ k, ... }] to the argument [v]:
    the property, or a [TypeError] when [v] is [undefined] or [null]. *)
Definition destructure (v : Val) (k : string) : Completion Val :=
  match v with
  | Undefined =>
      Throw (TypeError ("Cannot destructure property '" +:+ k
                        +:+ "' of 'undefined' as it is undefined."))
  | Null =>
      Throw (TypeError ("Cannot destructure property '" +:+ k
                        +:+ "' of 'object null' as it is null."))
  | Obj props => Return (default Undefined (assoc k props))
  | _ => Return Undefined
  end.

(** [v.k] for a name [k] that no built-in prototype defines (the client
    reads [token], [count], [brawler], [data] and [endpoints]): the own
    property of a plain object, [undefined] on any other value, and a
    [TypeError] on [undefined] and [null]. *)
Definition get (v : Val) (k : string) : Completion Val :=
  match v with
  | Undefined =>
      Throw (TypeError ("Cannot read properties of undefined (reading '" +:+ k +:+ "')"))
  | Null =>
      Throw (TypeError ("Cannot read properties of null (reading '" +:+ k +:+ "')"))
  | Obj props => Return (default Undefined (assoc k props))
  | _ => Return Undefined
  end.

End Js.


(** The two error monads of the embedding, with stdpp's [x ← m; k]. *)
#[export] Instance completion_ret : MRet Js.Completion := @Js.Return.
#[export] Instance completion_bind : MBind Js.Completion :=
  λ A B f m, match m with Js.Return a => f a | Js.Throw e => Js.Throw e end.
#[export] Instance completion_fmap : FMap Js.Completion :=
  λ A B f m, match m with Js.Return a => Js.Return (f a) | Js.Throw e => Js.Throw e end.

(** The same promise seen at another result type; no callback runs. *)
#[export] Instance promise_fmap : FMap Js.Promise :=
  λ A B f p, match p with Js.Resolved a => Js.Resolved (f a) | Js.Rejected e => Js.Rejected e end.

(** ** [src/utils.js]: the tag normalizer *)

Module TagNormalizer.

(** [String.prototype.toUpperCase] on one code unit, for the ASCII
    letters; other code units are left as they are. *)
Definition to_upper (c : ascii) : ascii :=
  if Js.between 97 122 c then ascii_of_nat (Js.code c - 32) else c.

Fixpoint map_chars (f : ascii -> ascii) (s : string) : string :=
  match s with
  | EmptyString => EmptyString
  | String c r => String (f c) (map_chars f r)
  end.

Fixpoint all_chars (p : ascii -> bool) (s : string) : bool :=
  match s with
  | EmptyString => true
  | String c r => p c && all_chars p r
  end.

(** Modelled from the spec: the letters of the accepted alphabet, which
    [src/utils.js] (imported by [Client.js], not among the sources) keeps;
    the spec gives the set as [{0289PYLQGRJCUV}]. *)
Definition TAG_LETTERS : string := "0289PYLQGRJCUV".

(** Modelled from the spec: the accepted alphabet of a normalized tag,
    "digits 0-9 and uppercase letters from the set {0289PYLQGRJCUV}". *)
Definition in_alphabet (c : ascii) : bool :=
  Js.is_digit c || existsb (Ascii.eqb c) (list_ascii_of_string TAG_LETTERS).

(** Modelled from the spec: "strips a leading #", the first step of the
    missing [clean]. *)
Definition strip_hash (tag : string) : string :=
  match tag with
  | String c r => if Ascii.eqb c "#" then r else tag
  | EmptyString => tag
  end.

(** Modelled from the spec: "rewrites every O to 0". *)
Definition o_to_zero (c : ascii) : ascii :=
  if Ascii.eqb c "O" then "0"%char else c.

(** Modelled from the spec: [clean] of the missing [src/utils.js]:
    "strips a leading #, uppercases all letters, and rewrites every O to
    0". *)
Definition clean (tag : string) : string :=
  map_chars o_to_zero (map_chars to_upper (strip_hash tag)).

(** Modelled from the spec: [validate] of the missing [src/utils.js]:
    "returns false if tag is empty or, after stripping a leading #,
    contains any character outside the accepted alphabet (case-insensitive
    letters, O->0 substitution applied before the check)". *)
Definition validate (tag : string) : bool :=
  negb (String.eqb tag "") && all_chars in_alphabet (clean tag).

End TagNormalizer.

(** ** The client and the objects it hands out *)

(** An instance of [class Client]: its identity (the address [new] gave
    it) and the non-writable [token] property. *)
Record Client := { self : nat; token : Js.Val }.

(** Modelled from the spec: [src/structures/Player.js] is not among the
    sources; a [Player] is "an immutable wrapper around one JSON record
    returned by the API, plus a non-owning reference to the Client that
    produced it". *)
Record Player := { player_client : Client; player_data : Js.Val }.

(** Modelled from the spec: [src/structures/Club.js] is not among the
    sources; a [Club] wraps one JSON record and refers to its client, like
    a [Player]. *)
Record Club := { club_client : Client; club_data : Js.Val }.

(** Modelled from the spec: [new Player(client, data)], the [wrapOne] of
    the spec for players: "constructs a single domain object from one JSON
    record, capturing client as its back-reference". *)
Definition new_Player (client : Client) (data : Js.Val) : Player :=
  {| player_client := client; player_data := data |}.

(** Modelled from the spec: [new Club(client, data)], the [wrapOne] of the
    spec for clubs. *)
Definition new_Club (client : Client) (data : Js.Val) : Club :=
  {| club_client := client; club_data := data |}.

(** What the promise of a public method resolves to. *)
Inductive Value :=
| Json (v : Js.Val)
| APlayer (p : Player)
| AClub (c : Club)
| Players (l : list Player)
| Clubs (l : list Club).

(** ** The transport: [ladybug-fetch] *)

(** A request as the client has built it by the time it is sent: the URL
    given to [ladybug], the mapping given to [.query] and the headers given
    to [.set].  What the transport adds of its own or makes of these values
    on the wire is not recorded. *)
Record Request := {
  url : string;
  query : gmap string Js.Val;
  headers : gmap string Js.Val
}.

(** The response object of the transport; the client reads its parsed
    [body]. *)
Record Response := { body : Js.Val }.

(** A computation that may send requests: the requests sent, in order, and
    the result. *)
Definition Net (A : Type) : Type := list Request * A.

#[export] Instance net_ret : MRet Net := λ A a, ([], a).
#[export] Instance net_bind : MBind Net :=
  λ A B f m, let '(sent, b) := f m.2 in (m.1 ++ sent, b).
#[export] Instance net_fmap : FMap Net := λ A B f m, (m.1, f m.2).

Definition calls {A} (m : Net A) : list Request := m.1.
Definition result {A} (m : Net A) : A := m.2.

(** ** [src/Client.js] *)

(** [new Client(options)] at a fresh address.  The default [{}] stands in
    for an omitted ([undefined]) argument only. *)
Definition new_Client (address : nat) (options : Js.Val) : Js.Completion Client :=
  let options := match options with Js.Undefined => Js.Obj [] | _ => options end in
  token ← Js.get options "token";
  if negb (Js.truthy token) then Js.Throw (Js.Error "Missing Authorization Token.")
  else mret {| self := address; token := token |}.

(** [res.map(f)] on a response body: the array method on an array, a
    [TypeError] on anything else a JSON body can be. *)
Definition array_map {B} (f : Js.Val -> B) (res : Js.Val) : Js.Completion (list B) :=
  match res with
  | Js.Arr items => Js.Return (map f items)
  | Js.Undefined => Js.Throw (Js.TypeError "Cannot read properties of undefined (reading 'map')")
  | Js.Null => Js.Throw (Js.TypeError "Cannot read properties of null (reading 'map')")
  | _ => Js.Throw (Js.TypeError "res.map is not a function")
  end.

(** The condition [count && check(count)] of the two leaderboard methods:
    [&&] evaluates its right operand only when the left one is truthy. *)
Definition count_and (check : Js.Val -> Js.Completion bool) (count : Js.Val)
  : Js.Completion bool :=
  if Js.truthy count then check count else Js.Return false.

(** [if(v) query[k] = v;] *)
Definition set_if_truthy (k : string) (v : Js.Val) (query : gmap string Js.Val)
  : gmap string Js.Val :=
  if Js.truthy v then <[k := v]> query else query.

Section ClientJs.

(** The imported [ladybug-fetch]: what the promise of a request settles
    to once the request is sent. *)
Variable ladybug : Request -> Js.Promise Response.

Definition send (r : Request) : Net (Js.Promise Response) := ([r], ladybug r).

Definition _get (this : Client) (endpoint : string) (query : gmap string Js.Val)
  : Net (Js.Promise Js.Val) :=
  res ← send {| url := "https://brawlapi.cf/api/" +:+ endpoint;
                query := query;
                headers := {[ "Authorization" := token this ]} |};
  mret (Js.then_ res (λ res, mret (body res))).

Definition getEndpoints (this : Client) : Net (Js.Promise Value) :=
  p ← _get this "" ∅;
  mret (Js.then_ p (λ res,
    data ← Js.get res "data";
    endpoints ← Js.get data "endpoints";
    mret (Json endpoints))).

Definition getPlayer (this : Client) (tag : string) : Net (Js.Promise Value) :=
  if negb (TagNormalizer.validate tag) then mret (Js.reject (Js.Error "Invalid Tag."))
  else
    p ← _get this "player" {[ "tag" := Js.Str (TagNormalizer.clean tag) ]};
    mret (Js.then_ p (λ res, mret (APlayer (new_Player this res)))).

Definition getClub (this : Client) (tag : string) : Net (Js.Promise Value) :=
  if negb (TagNormalizer.validate tag) then mret (Js.reject (Js.Error "Invalid Tag."))
  else
    p ← _get this "club" {[ "tag" := Js.Str (TagNormalizer.clean tag) ]};
    mret (Js.then_ p (λ res, mret (AClub (new_Club this res)))).

Definition about (this : Client) : Net (Js.Promise Value) :=
  p ← _get this "about" ∅;
  mret (Json <$> p).

(** [getTopPlayers({ count, brawler } = {})]: destructuring [null] throws
    before the body runs, and so does the guard when [isNaN] throws. *)
Definition getTopPlayers (this : Client) (options : Js.Val)
  : Net (Js.Completion (Js.Promise Value)) :=
  let options := match options with Js.Undefined => Js.Obj [] | _ => options end in
  match (count ← Js.destructure options "count";
         brawler ← Js.destructure options "brawler";
         mret (count, brawler)) with
  | Js.Throw e => mret (Js.Throw e)
  | Js.Return (count, brawler) =>
      match count_and Js.isNaN count with
      | Js.Throw e => mret (Js.Throw e)
      | Js.Return true =>
          mret (Js.Return (Js.reject (Js.TypeError "Count must be a number.")))
      | Js.Return false =>
          let query := ∅ in
          let query := set_if_truthy "count" count query in
          let query := set_if_truthy "brawler" brawler query in
          p ← _get this "/leaderboards/players" query;
          mret (Js.Return (Js.then_ p (λ res,
            Players <$> array_map (λ player, new_Player this player) res)))
      end
  end.

Definition getTopClubs (this : Client) (count : Js.Val)
  : Net (Js.Completion (Js.Promise Value)) :=
  match count_and Js.isNaN count with
  | Js.Throw e => mret (Js.Throw e)
  | Js.Return true =>
      mret (Js.Return (Js.reject (Js.TypeError "Count must be a number.")))
  | Js.Return false =>
      let query := ∅ in
      let query := set_if_truthy "count" count query in
      p ← _get this "/leaderboards/clubs" query;
      mret (Js.Return (Js.then_ p (λ res,
        Clubs <$> array_map (λ club, new_Club this club) res)))
  end.

Definition _events (this : Client) (type : string) : Net (Js.Promise Value) :=
  p ← _get this "events" {[ "type" := Js.Str type ]};
  mret (Json <$> p).

Definition getUpcomingEvents (this : Client) : Net (Js.Promise Value) :=
  _events this "upcoming".

Definition getCurrentEvents (this : Client) : Net (Js.Promise Value) :=
  _events this "current".

Definition getMisc (this : Client) : Net (Js.Promise Value) :=
  p ← _get this "misc" ∅;
  mret (Json <$> p).

Definition clubSearch (this : Client) (query : Js.Val) : Net (Js.Promise Value) :=
  p ← _get this "clubSearch" {[ "query" := query ]};
  mret (Js.then_ p (λ res,
    Clubs <$> array_map (λ club, new_Club this club) res)).

(** A call of one of the public methods, with its arguments. *)
Inductive Call :=
| GetEndpoints
| GetPlayer (tag : string)
| GetClub (tag : string)
| About
| GetTopPlayers (options : Js.Val)
| GetTopClubs (count : Js.Val)
| GetUpcomingEvents
| GetCurrentEvents
| GetMisc
| ClubSearch (query : Js.Val).

Definition invoke (this : Client) (c : Call) : Net (Js.Completion (Js.Promise Value)) :=
  match c with
  | GetEndpoints => Js.Return <$> getEndpoints this
  | GetPlayer tag => Js.Return <$> getPlayer this tag
  | GetClub tag => Js.Return <$> getClub this tag
  | About => Js.Return <$> about this
  | GetTopPlayers options => getTopPlayers this options
  | GetTopClubs count => getTopClubs this count
  | GetUpcomingEvents => Js.Return <$> getUpcomingEvents this
  | GetCurrentEvents => Js.Return <$> getCurrentEvents this
  | GetMisc => Js.Return <$> getMisc this
  | ClubSearch query => Js.Return <$> clubSearch this query
  end.

End ClientJs.

(** ** The error taxonomy of the spec, as the code raises it *)

Definition ConfigurationError : Js.Exn := Js.Error "Missing Authorization Token.".
Definition InvalidTagError : Js.Exn := Js.Error "Invalid Tag.".
Definition InvalidArgumentError : Js.Exn := Js.TypeError "Count must be a number.".

(** ** Transport stubs and sample data *)

(** A transport that answers every request with the body [b]. *)
Definition respond (b : Js.Val) : Request -> Js.Promise Response :=
  λ _, Js.Resolved {| body := b |}.

(** A transport that fails every request with [e]. *)
Definition fail_with (e : Js.Exn) : Request -> Js.Promise Response :=
  λ _, Js.Rejected e.

Definition network_down : Js.Exn := Js.Error "getaddrinfo ENOTFOUND brawlapi.cf".

Definition sample_client : Client := {| self := 1; token := Js.Str "secret" |}.

(** The endpoints the spec lists as consumed. *)
Definition consumed_endpoints : list string :=
  [""; "player"; "club"; "about"; "leaderboards/players"; "leaderboards/clubs";
   "events"; "misc"; "clubSearch"].

(** The URL the spec gives for an endpoint: the fixed host, then
    [/api/{endpoint}]. *)
Definition documented_url (endpoint : string) : string :=
  "https://brawlapi.cf" +:+ "/api/" +:+ endpoint.

(** ** Vocabulary of the properties *)

(** The clients that the objects of a result refer back to. *)
Definition back_references (v : Value) : list Client :=
  match v with
  | Json _ => []
  | APlayer p => [player_client p]
  | AClub c => [club_client c]
  | Players l => map player_client l
  | Clubs l => map club_client l
  end.


(** The calls of the list endpoints. *)
Definition is_list_call (c : Call) : bool :=
  match c with
  | GetTopPlayers _ | GetTopClubs _ | ClubSearch _ => true
  | _ => false
  end.

(** The [wrapMany(client, rawList)] of the spec, which the list methods are
    compared with: it "applies wrapOne to each element of rawList,
    preserving input order exactly"; the kind of object is the one that
    the call's endpoint lists. *)
Definition wrapMany (c : Call) (client : Client) (rawList : list Js.Val) : Value :=
  match c with
  | GetTopPlayers _ => Players (map (new_Player client) rawList)
  | _ => Clubs (map (new_Club client) rawList)
  end.


(** The characters a tag may be written with before it is cleaned: the
    digits, the ten letters in either case, and the letter O in either
    case. *)
Definition accepted_char (c : ascii) : bool :=
  existsb (Ascii.eqb c) (list_ascii_of_string "0123456789PYLQGRJCUVpylqgrjcuvOo").

(** A string that consists solely of the accepted alphabet once one
    leading [#] is stripped, letters are case-folded and O is read as 0. *)
Definition accepted (s : string) : bool :=
  TagNormalizer.all_chars accepted_char (TagNormalizer.strip_hash s).

(** The calls of the methods that hand the response body back as it is:
    [about], [getMisc] and the two events methods. *)
Definition is_passthrough_call (c : Call) : bool :=
  match c with
  | About | GetMisc | GetUpcomingEvents | GetCurrentEvents => true
  | _ => false
  end.

(** Whether [v] is the kind of value that the method of the call [c] is
    documented to resolve to: a [Player], a [Club], an array of either, or
    plain data. *)
Definition result_kind (c : Call) (v : Value) : bool :=
  match c, v with
  | GetPlayer _, APlayer _ => true
  | GetClub _, AClub _ => true
  | GetTopPlayers _, Players _ => true
  | (GetTopClubs _ | ClubSearch _), Clubs _ => true
  | (GetEndpoints | About | GetMisc | GetUpcomingEvents | GetCurrentEvents), Json _ => true
  | _, _ => false
  end.

(** A count that is provided: any argument other than [undefined]. *)
Definition provided (count : Js.Val) : Prop := count ≠ Js.Undefined.

(** ** Properties *)

(** *** The embedding on sample calls *)

Example new_Client_sample :
  new_Client 1 (Js.Obj [("token", Js.Str "secret")]) = Js.Return sample_client.
Proof. reflexivity. Qed.

Example getPlayer_sample :
  getPlayer (respond (Js.Obj [("tag", Js.Str "#2PP")])) sample_client "#2pp"
  = ([ {| url := "https://brawlapi.cf/api/player";
          query := {[ "tag" := Js.Str "2PP" ]};
          headers := {[ "Authorization" := Js.Str "secret" ]} |} ],
     Js.Resolved (APlayer (new_Player sample_client (Js.Obj [("tag", Js.Str "#2PP")])))).
Proof. reflexivity. Qed.

Example getTopPlayers_sample :
  getTopPlayers (respond (Js.Arr [])) sample_client
    (Js.Obj [("count", Js.Str "20"); ("brawler", Js.Str "shelly")])
  = ([ {| url := "https://brawlapi.cf/api//leaderboards/players";
          query := {[ "count" := Js.Str "20"; "brawler" := Js.Str "shelly" ]};
          headers := {[ "Authorization" := Js.Str "secret" ]} |} ],
     Js.Return (Js.Resolved (Players []))).
Proof. vm_compute. reflexivity. Qed.

Example getTopPlayers_null :
  ∃ msg, getTopPlayers (respond (Js.Arr [])) sample_client Js.Null
         = ([], Js.Throw (Js.TypeError msg)).
Proof. eexists. reflexivity. Qed.

Example getTopClubs_own_toString :
  ∃ msg, getTopClubs (respond (Js.Arr [])) sample_client
           (Js.Obj [("toString", Js.Num (Js.of_Z 1))])
         = ([], Js.Throw (Js.TypeError msg)).
Proof. eexists. reflexivity. Qed.

Example getEndpoints_sample :
  getEndpoints (respond (Js.Obj [("data", Js.Obj [("endpoints", Js.Arr [Js.Str "player"])])]))
    sample_client
  = ([ {| url := "https://brawlapi.cf/api/"; query := ∅;
          headers := {[ "Authorization" := Js.Str "secret" ]} |} ],
     Js.Resolved (Json (Js.Arr [Js.Str "player"]))).
Proof. reflexivity. Qed.

Example isNaN_samples :
  Js.isNaN (Js.Str "abc") = Js.Return true
  ∧ Js.isNaN (Js.Str " 20 ") = Js.Return false
  ∧ Js.isNaN (Js.Str "-1.5e+3") = Js.Return false
  ∧ Js.isNaN (Js.Str "0x1F") = Js.Return false
  ∧ Js.isNaN (Js.Str "-0x1F") = Js.Return true
  ∧ Js.isNaN (Js.Str "5e") = Js.Return true
  ∧ Js.isNaN (Js.Str ".") = Js.Return true
  ∧ Js.isNaN (Js.Str "") = Js.Return false
  ∧ Js.isNaN (Js.Str "-Infinity") = Js.Return false
  ∧ Js.isNaN Js.Undefined = Js.Return true
  ∧ Js.isNaN Js.Null = Js.Return false
  ∧ Js.isNaN (Js.Num (Js.of_Z 20)) = Js.Return false
  ∧ Js.isNaN (Js.Arr []) = Js.Return false
  ∧ Js.isNaN (Js.Arr [Js.Str "7"]) = Js.Return false
  ∧ Js.isNaN (Js.Arr [Js.Num (Js.of_Z 1); Js.Num (Js.of_Z 2)]) = Js.Return true
  ∧ Js.isNaN (Js.Obj []) = Js.Return true
  ∧ Js.isNaN (Js.Obj [("valueOf", Js.Num (Js.of_Z 1))]) = Js.Return true.
Proof. repeat split; reflexivity. Qed.

Example isNaN_throws_samples :
  (∃ msg, Js.isNaN (Js.Obj [("toString", Js.Num (Js.of_Z 1))]) = Js.Throw (Js.TypeError msg))
  ∧ (∃ msg, Js.isNaN (Js.Arr [Js.Num (Js.of_Z 1); Js.Obj [("toString", Js.Null)]])
            = Js.Throw (Js.TypeError msg))
  ∧ (∃ msg, Js.isNaN (Js.Arr [Js.Arr [Js.Obj [("toString", Js.Str "x")]]])
            = Js.Throw (Js.TypeError msg)).
Proof. repeat split; eexists; reflexivity. Qed.

Example truthy_samples :
  Js.truthy (Js.Num (Js.of_Z 0)) = false
  ∧ Js.truthy (Js.Num Js.NaN) = false
  ∧ Js.truthy (Js.Str "") = false
  ∧ Js.truthy (Js.Str "0") = true
  ∧ Js.truthy (Js.Num (Js.of_Z 20)) = true
  ∧ Js.truthy (Js.Arr []) = true.
Proof. repeat split; reflexivity. Qed.

Example validate_ABC : TagNormalizer.validate "ABC" = false.
Proof. reflexivity. Qed.

Example validate_hash : TagNormalizer.validate "#" = true.
Proof. reflexivity. Qed.

Example clean_sample : TagNormalizer.clean "#2oPy#o" = "20PY#0".
Proof. reflexivity. Qed.


(** *** Argument checks run before the transport *)

Lemma count_and_true check count :
  count_and check count = Js.Return true
  ↔ Js.truthy count = true ∧ check count = Js.Return true.
Proof.
  unfold count_and. destruct (Js.truthy count); intuition congruence.
Qed.


Lemma count_and_falsy check count :
  Js.truthy count = false → count_and check count = Js.Return false.
Proof. unfold count_and. by intros ->. Qed.

Lemma set_if_truthy_falsy k v (q : gmap string Js.Val) :
  Js.truthy v = false → set_if_truthy k v q = q.
Proof. unfold set_if_truthy. by intros ->. Qed.

Lemma set_if_truthy_lookup_eq k v (q : gmap string Js.Val) :
  set_if_truthy k v q !! k = if Js.truthy v then Some v else q !! k.
Proof.
  unfold set_if_truthy. destruct (Js.truthy v); [apply lookup_insert_eq | reflexivity].
Qed.

Lemma set_if_truthy_lookup_ne k v (q : gmap string Js.Val) k' :
  k ≠ k' → set_if_truthy k v q !! k' = q !! k'.
Proof.
  intros Hne. unfold set_if_truthy.
  destruct (Js.truthy v); [by apply lookup_insert_ne | reflexivity].
Qed.

Lemma get_count props :
  Js.destructure (Js.Obj props) "count"
  = Js.Return (default Js.Undefined (Js.assoc "count" props)).
Proof. reflexivity. Qed.

(** C1: a tag that fails validation makes [getPlayer] and [getClub] return
    a promise rejected with [InvalidTagError] without sending anything:
    the list of requests handed to the transport is empty. *)
Theorem invalid_tag_rejected_before_transport ladybug this tag :
  TagNormalizer.validate tag = false →
  getPlayer ladybug this tag = ([], Js.Rejected InvalidTagError)
  ∧ getClub ladybug this tag = ([], Js.Rejected InvalidTagError).
Proof.
  intros Hbad. unfold getPlayer, getClub. rewrite Hbad. split; reflexivity.
Qed.

(** The two tags the spec names, the empty string and ["###"], fail
    validation and are rejected with no request recorded. *)
Lemma invalid_tag_rejected_witness :
  (TagNormalizer.validate "" = false
   ∧ getPlayer (respond Js.Null) sample_client "" = ([], Js.Rejected InvalidTagError)
   ∧ getClub (respond Js.Null) sample_client "" = ([], Js.Rejected InvalidTagError))
  ∧ (TagNormalizer.validate "###" = false
     ∧ getPlayer (respond Js.Null) sample_client "###" = ([], Js.Rejected InvalidTagError)
     ∧ getClub (respond Js.Null) sample_client "###" = ([], Js.Rejected InvalidTagError)).
Proof.
  split.
  - split; [reflexivity |].
    apply (invalid_tag_rejected_before_transport (respond Js.Null) sample_client "").
    reflexivity.
  - split; [reflexivity |].
    apply (invalid_tag_rejected_before_transport (respond Js.Null) sample_client "###").
    reflexivity.
Defined.

(** C2 as stated fails: [NaN] is a count that is provided (it is not
    [undefined]) and not numeric ([isNaN] holds of it), yet it is falsy, the
    guard [count && isNaN(count)] lets it through, and the request is
    sent. *)
Lemma NaN_count_reaches_transport :
  provided (Js.Num Js.NaN)
  ∧ Js.isNaN (Js.Num Js.NaN) = Js.Return true
  ∧ getTopClubs (respond (Js.Arr [])) sample_client (Js.Num Js.NaN)
    = ([ {| url := "https://brawlapi.cf/api//leaderboards/clubs"; query := ∅;
            headers := {[ "Authorization" := Js.Str "secret" ]} |} ],
       Js.Return (Js.Resolved (Clubs [])))
  ∧ getTopClubs (respond (Js.Arr [])) sample_client (Js.Num Js.NaN)
    ≠ ([], Js.Return (Js.Rejected InvalidArgumentError))
  ∧ getTopPlayers (respond (Js.Arr [])) sample_client (Js.Obj [("count", Js.Num Js.NaN)])
    ≠ ([], Js.Return (Js.Rejected InvalidArgumentError)).
Proof.
  repeat split; try reflexivity; vm_compute; discriminate.
Qed.

(** C2, amended: a count that is truthy and of which [isNaN] holds (it
    returns [true]; it does not throw) makes [getTopClubs(count)] and
    [getTopPlayers({count, ...})] return a promise rejected with
    [InvalidArgumentError] without sending anything.  A falsy count is
    treated as absent: [isNaN] is not asked, and the request is sent
    without [count], as it is for [getTopClubs()]. *)
Theorem truthy_non_numeric_count_rejected ladybug this count :
  (Js.truthy count = true →
   Js.isNaN count = Js.Return true →
   getTopClubs ladybug this count = ([], Js.Return (Js.Rejected InvalidArgumentError))
   ∧ ∀ props, Js.assoc "count" props = Some count →
       getTopPlayers ladybug this (Js.Obj props)
       = ([], Js.Return (Js.Rejected InvalidArgumentError)))
  ∧ (Js.truthy count = false →
     getTopClubs ladybug this count = getTopClubs ladybug this Js.Undefined
     ∧ (∃ r, calls (getTopClubs ladybug this count) = [r] ∧ query r = ∅)
     ∧ ∀ props, Js.assoc "count" props = Some count →
         ∃ r, calls (getTopPlayers ladybug this (Js.Obj props)) = [r]
              ∧ query r !! "count" = None).
Proof.
  split.
  - intros Ht Hn.
    assert (Hguard : count_and Js.isNaN count = Js.Return true)
      by (apply count_and_true; auto).
    split.
    + unfold getTopClubs. rewrite Hguard. reflexivity.
    + intros props Hc. unfold getTopPlayers. rewrite get_count, Hc. cbn.
      rewrite Hguard. reflexivity.
  - intros Hf.
    assert (Hguard : count_and Js.isNaN count = Js.Return false)
      by (by apply count_and_falsy).
    split; [| split].
    + unfold getTopClubs. rewrite Hguard, (set_if_truthy_falsy _ _ _ Hf). reflexivity.
    + unfold getTopClubs. rewrite Hguard, (set_if_truthy_falsy _ _ _ Hf).
      eexists. split; reflexivity.
    + intros props Hc. unfold getTopPlayers. rewrite get_count, Hc. cbn.
      rewrite Hguard, (set_if_truthy_falsy _ _ _ Hf).
      eexists. split; [reflexivity |]. cbn [query].
      rewrite set_if_truthy_lookup_ne by discriminate. apply lookup_empty.
Qed.

Lemma truthy_non_numeric_count_witness :
  (Js.truthy (Js.Str "abc") = true
   ∧ Js.isNaN (Js.Str "abc") = Js.Return true
   ∧ getTopClubs (respond (Js.Arr [])) sample_client (Js.Str "abc")
     = ([], Js.Return (Js.Rejected InvalidArgumentError))
   ∧ getTopPlayers (respond (Js.Arr [])) sample_client (Js.Obj [("count", Js.Str "abc")])
     = ([], Js.Return (Js.Rejected InvalidArgumentError)))
  ∧ (Js.truthy (Js.Str "") = false
     ∧ getTopClubs (respond (Js.Arr [])) sample_client (Js.Str "")
       = getTopClubs (respond (Js.Arr [])) sample_client Js.Undefined
     ∧ ∃ r, calls (getTopPlayers (respond (Js.Arr [])) sample_client
                     (Js.Obj [("count", Js.Str "")])) = [r]
            ∧ query r !! "count" = None).
Proof.
  split.
  - split; [reflexivity |]. split; [reflexivity |].
    destruct (truthy_non_numeric_count_rejected (respond (Js.Arr [])) sample_client
                (Js.Str "abc")) as [Hrefused _].
    destruct (Hrefused eq_refl eq_refl) as [Hclubs Hplayers].
    split; [exact Hclubs |].
    apply Hplayers. reflexivity.
  - split; [reflexivity |].
    destruct (truthy_non_numeric_count_rejected (respond (Js.Arr [])) sample_client
                (Js.Str "")) as [_ Habsent].
    destruct (Habsent eq_refl) as (Hclubs & _ & Hplayers).
    split; [exact Hclubs |].
    apply Hplayers. reflexivity.
Defined.

(** *** Construction *)

(** C8: [new Client()] and [new Client(options)] for an object [options]
    without a [token] property throw [ConfigurationError]; no instance is
    returned. *)
Theorem construction_without_token_fails address options :
  options = Js.Undefined
  ∨ (∃ props, options = Js.Obj props ∧ Js.assoc "token" props = None) →
  new_Client address options = Js.Throw ConfigurationError.
Proof.
  intros [-> | (props & -> & Hmissing)].
  - reflexivity.
  - unfold new_Client. cbn. rewrite Hmissing. reflexivity.
Qed.

Lemma construction_without_token_witness :
  new_Client 7 Js.Undefined = Js.Throw ConfigurationError
  ∧ new_Client 7 (Js.Obj [("timeout", Js.Num (Js.of_Z 5000))]) = Js.Throw ConfigurationError.
Proof.
  split.
  - apply (construction_without_token_fails 7 Js.Undefined). left. reflexivity.
  - apply (construction_without_token_fails 7 (Js.Obj [("timeout", Js.Num (Js.of_Z 5000))])).
    right. eexists. split; reflexivity.
Defined.

(** A token that is present but falsy is refused in the same way, and a
    truthy one yields the instance holding it. *)
Lemma construction_by_token address props t :
  Js.assoc "token" props = Some t →
  new_Client address (Js.Obj props)
  = if Js.truthy t then Js.Return {| self := address; token := t |}
    else Js.Throw ConfigurationError.
Proof.
  intros Ht. unfold new_Client. cbn. rewrite Ht. cbn.
  destruct (Js.truthy t); reflexivity.
Qed.

(** *** A count of zero *)

(** C10: a count of [0] (either zero) is falsy, so [count && ...] is false
    whatever the numeric check would answer, no [count] enters the query,
    and the one request of the call is sent: [getTopClubs(0)] sends an
    empty query, [getTopPlayers({count: 0, brawler})] a query without
    [count], and the promise returned is the transport's, mapped. *)
Theorem zero_count_is_absent ladybug this negative exponent brawler :
  (∀ check, count_and check (Js.Num (Js.Finite negative 0 exponent)) = Js.Return false)
  ∧ getTopClubs ladybug this (Js.Num (Js.Finite negative 0 exponent))
    = getTopClubs ladybug this Js.Undefined
  ∧ getTopPlayers ladybug this
      (Js.Obj [("count", Js.Num (Js.Finite negative 0 exponent)); ("brawler", brawler)])
    = getTopPlayers ladybug this (Js.Obj [("brawler", brawler)])
  ∧ (∃ r, getTopClubs ladybug this (Js.Num (Js.Finite negative 0 exponent))
          = ([r], Js.Return
                    (Js.then_ (Js.then_ (ladybug r) (λ res, Js.Return (body res)))
                       (λ res, Clubs <$> array_map (new_Club this) res)))
          ∧ query r = ∅)
  ∧ (∃ r, getTopPlayers ladybug this
            (Js.Obj [("count", Js.Num (Js.Finite negative 0 exponent)); ("brawler", brawler)])
          = ([r], Js.Return
                    (Js.then_ (Js.then_ (ladybug r) (λ res, Js.Return (body res)))
                       (λ res, Players <$> array_map (new_Player this) res)))
          ∧ query r !! "count" = None).
Proof.
  split; [| split; [| split; [| split]]].
  - intros check. reflexivity.
  - reflexivity.
  - reflexivity.
  - eexists. split; reflexivity.
  - eexists. split; [reflexivity |].
    cbn. unfold set_if_truthy. cbn.
    destruct (Js.truthy brawler).
    + rewrite lookup_insert_ne by discriminate. apply lookup_empty.
    + apply lookup_empty.
Qed.

(** With a transport that answers, the two calls succeed. *)
Example zero_count_sample :
  getTopClubs (respond (Js.Arr [])) sample_client (Js.Num (Js.of_Z 0))
  = ([ {| url := "https://brawlapi.cf/api//leaderboards/clubs"; query := ∅;
          headers := {[ "Authorization" := Js.Str "secret" ]} |} ],
     Js.Return (Js.Resolved (Clubs [])))
  ∧ getTopPlayers (respond (Js.Arr [])) sample_client (Js.Obj [("count", Js.Num (Js.of_Z 0))])
    = ([ {| url := "https://brawlapi.cf/api//leaderboards/players"; query := ∅;
            headers := {[ "Authorization" := Js.Str "secret" ]} |} ],
       Js.Return (Js.Resolved (Players []))).
Proof. split; reflexivity. Qed.

(** *** Transport failures *)

Section Propagation.

Variable ladybug : Request -> Js.Promise Response.
Variable this : Client.

(** The ways [getTopPlayers] goes: the pattern fails on [null]; otherwise
    the guard on [count] throws, refuses, or lets the request go. *)
Lemma getTopPlayers_cases options :
  (options = Js.Null
   ∧ ∃ msg, getTopPlayers ladybug this options = ([], Js.Throw (Js.TypeError msg)))
  ∨ (∃ count brawler,
       getTopPlayers ladybug this options
       = match count_and Js.isNaN count with
         | Js.Throw e => ([], Js.Throw e)
         | Js.Return true => ([], Js.Return (Js.Rejected InvalidArgumentError))
         | Js.Return false =>
             Js.Return <$>
               (p ← _get ladybug this "/leaderboards/players"
                      (set_if_truthy "brawler" brawler (set_if_truthy "count" count ∅));
                mret (Js.then_ p (λ res, Players <$> array_map (new_Player this) res)))
         end).
Proof.
  destruct options;
    try (right; exists Js.Undefined, Js.Undefined; reflexivity).
  - left. split; [reflexivity |]. eexists. reflexivity.
  - right. exists (default Js.Undefined (Js.assoc "count" props)),
                  (default Js.Undefined (Js.assoc "brawler" props)).
    unfold getTopPlayers. cbn.
    destruct (count_and _ _) as [[|] | e]; reflexivity.
Qed.

End Propagation.

(** Case analysis on the method called and on its argument checks, in the
    hypothesis [H] about what [invoke] sends: one case for each way a
    method ends before the transport, one for each request. *)
Ltac method_cases call H :=
  destruct call; cbn in H; unfold getPlayer, getClub, getTopClubs in H;
  try (destruct (negb _) eqn:?; cbn in H);
  try (destruct (count_and _ _) as [[|] | ?] eqn:?; cbn in H);
  try (match type of H with
       | context [getTopPlayers ?l ?t ?o] =>
           let Heq := fresh "Heq" in
           destruct (getTopPlayers_cases l t o) as [(_ & ? & Heq) | (? & ? & Heq)];
           rewrite Heq in H; clear Heq;
           try (destruct (count_and _ _) as [[|] | ?] eqn:?); cbn in H
       end).

Section Requests.

Variable ladybug : Request -> Js.Promise Response.
Variable this : Client.

(** Every public method sends at most one request. *)
Lemma at_most_one_request call sent :
  calls (invoke ladybug this call) = sent → (List.length sent ≤ 1)%nat.
Proof.
  intros Hsent. method_cases call Hsent; subst sent; cbn; lia.
Qed.

(** A rejection of the transport is the rejection of the method. *)
Lemma rejection_propagates call r e :
  calls (invoke ladybug this call) = [r] →
  ladybug r = Js.Rejected e →
  result (invoke ladybug this call) = Js.Return (Js.Rejected e).
Proof.
  intros Hsent Hfail.
  destruct call; cbn in *; unfold getPlayer, getClub, getTopClubs in *;
    try (destruct (negb _); cbn in *; [discriminate |]);
    try (destruct (count_and _ _) as [[|] | ?]; cbn in *; [discriminate | | discriminate]);
    try (injection Hsent as <-; rewrite Hfail; reflexivity).
  destruct (getTopPlayers_cases ladybug this options)
    as [(_ & e' & Heq) | (count & brawler & Heq)];
    rewrite Heq in *; [discriminate |].
  destruct (count_and _ _) as [[|] | ?]; cbn in *; [discriminate | | discriminate].
  injection Hsent as <-. rewrite Hfail. reflexivity.
Qed.

(** What every request carries, whichever method sent it: the fixed host
    and [/api/] prefix, and the client's token as [Authorization]; apart
    from the two leaderboard methods the rest of the URL is an endpoint of
    the consumed set. *)
Lemma request_shape call r :
  r ∈ calls (invoke ladybug this call) →
  headers r = {[ "Authorization" := token this ]}
  ∧ ∃ endpoint, url r = documented_url endpoint
      ∧ (endpoint ∈ consumed_endpoints
         ∨ (∃ options, call = GetTopPlayers options) ∧ endpoint = "/leaderboards/players"
         ∨ (∃ count, call = GetTopClubs count) ∧ endpoint = "/leaderboards/clubs").
Proof.
  intros Hin.
  method_cases call Hin; try (by apply elem_of_nil in Hin);
    apply list_elem_of_singleton in Hin; subst r; (split; [reflexivity |]);
    eexists; (split; [reflexivity |]);
    first [ left; unfold consumed_endpoints; set_solver
          | right; left; split; [by eexists | reflexivity]
          | right; right; split; [by eexists | reflexivity] ].
Qed.

End Requests.

(** C3 fails for the two leaderboard methods: the endpoint they pass is
    ["/leaderboards/players"] and ["/leaderboards/clubs"], with a leading
    slash, so the path of the request is [/api//leaderboards/...] and not
    the [/api/leaderboards/...] that the header comment of [Client.js]
    documents and that every other method's endpoint follows. *)
Theorem leaderboard_urls_have_double_slash ladybug this :
  url <$> calls (getTopPlayers ladybug this Js.Undefined)
  = ["https://brawlapi.cf/api//leaderboards/players"]
  ∧ url <$> calls (getTopClubs ladybug this Js.Undefined)
    = ["https://brawlapi.cf/api//leaderboards/clubs"]
  ∧ "https://brawlapi.cf/api//leaderboards/players" ≠ documented_url "leaderboards/players"
  ∧ "https://brawlapi.cf/api//leaderboards/clubs" ≠ documented_url "leaderboards/clubs".
Proof.
  repeat split; try reflexivity; vm_compute; discriminate.
Qed.

(** C5 as stated fails on its example: ["ABC"] is no valid tag (A and B are
    outside the accepted alphabet), so [getClub("ABC")] is rejected with
    [InvalidTagError] before the failing transport is reached. *)
Lemma getClub_ABC_rejects_the_tag :
  getClub (fail_with network_down) sample_client "ABC" = ([], Js.Rejected InvalidTagError)
  ∧ result (getClub (fail_with network_down) sample_client "ABC") ≠ Js.Rejected network_down.
Proof.
  split; [reflexivity |]. vm_compute. discriminate.
Qed.

(** C5, amended: when the transport rejects the request that a call of a
    public method has sent, with whatever error [e], the promise returned
    by the method is rejected with that same [e]. *)
Theorem transport_failure_propagates ladybug this call r e :
  calls (invoke ladybug this call) = [r] →
  ladybug r = Js.Rejected e →
  result (invoke ladybug this call) = Js.Return (Js.Rejected e).
Proof. apply rejection_propagates. Qed.

Lemma transport_failure_propagates_witness :
  calls (invoke (fail_with network_down) sample_client (GetClub "2PP"))
  = [ {| url := "https://brawlapi.cf/api/club";
         query := {[ "tag" := Js.Str "2PP" ]};
         headers := {[ "Authorization" := Js.Str "secret" ]} |} ]
  ∧ result (invoke (fail_with network_down) sample_client (GetClub "2PP"))
    = Js.Return (Js.Rejected network_down).
Proof.
  split; [reflexivity |].
  apply (transport_failure_propagates (fail_with network_down) sample_client (GetClub "2PP")
           {| url := "https://brawlapi.cf/api/club";
              query := {[ "tag" := Js.Str "2PP" ]};
              headers := {[ "Authorization" := Js.Str "secret" ]} |} network_down);
    reflexivity.
Defined.

(** For [getClub], the example of the spec: with a transport that fails
    every request, every valid tag is answered with the transport's
    error. *)
Lemma getClub_failure_propagates ladybug this tag e :
  TagNormalizer.validate tag = true →
  (∀ r, ladybug r = Js.Rejected e) →
  result (getClub ladybug this tag) = Js.Rejected e.
Proof.
  intros Hvalid Hfail. unfold getClub. rewrite Hvalid. cbn. rewrite Hfail. reflexivity.
Qed.

(** *** From response bodies to players and clubs *)

Section Mapping.

Variable ladybug : Request -> Js.Promise Response.
Variable this : Client.


Lemma wrapMany_back_references call items :
  Forall (λ c, c = this) (back_references (wrapMany call this items)).
Proof.
  destruct call; cbn; induction items; cbn; constructor; auto.
Qed.


(** Whatever a method resolves to, the players and clubs in it refer to
    the client the method was called on. *)
Lemma resolved_back_references call v :
  result (invoke ladybug this call) = Js.Return (Js.Resolved v) →
  Forall (λ c, c = this) (back_references v).
Proof.
  intros Hres.
  assert (Hmap : ∀ p : Js.Promise Js.Val,
             Js.then_ p (λ res, Clubs <$> array_map (new_Club this) res) = Js.Resolved v →
             Forall (λ c, c = this) (back_references v)).
  { intros [b | e] H; cbn in H; [| discriminate].
    destruct b; try discriminate. injection H as <-.
    apply (wrapMany_back_references (GetTopClubs Js.Undefined)). }
  destruct call; cbn in Hres; unfold getPlayer, getClub, getTopClubs in Hres;
    try (destruct (negb _); cbn in Hres; [discriminate |]);
    try (destruct (count_and _ _) as [[|] | ?]; cbn in Hres; [discriminate | | discriminate]).
  - destruct (ladybug _) as [[b] | e]; cbn in Hres; [| discriminate].
    destruct (Js.get b "data") as [d | e]; cbn in Hres; [| discriminate].
    destruct (Js.get d "endpoints") as [x | e]; cbn in Hres; [| discriminate].
    injection Hres as <-. constructor.
  - destruct (ladybug _) as [[b] | e]; cbn in Hres; [| discriminate].
    injection Hres as <-. repeat constructor.
  - destruct (ladybug _) as [[b] | e]; cbn in Hres; [| discriminate].
    injection Hres as <-. repeat constructor.
  - destruct (ladybug _) as [[b] | e]; cbn in Hres; [| discriminate].
    injection Hres as <-. constructor.
  - destruct (getTopPlayers_cases ladybug this options)
      as [(_ & e' & Heq) | (count & brawler & Heq)];
      rewrite Heq in Hres; [discriminate |].
    destruct (count_and _ _) as [[|] | ?]; cbn in Hres; [discriminate | | discriminate].
    destruct (ladybug _) as [[b] | e]; cbn in Hres; [| discriminate].
    destruct b; try discriminate. injection Hres as <-.
    apply (wrapMany_back_references (GetTopPlayers Js.Undefined)).
  - injection Hres as Hres. eapply Hmap, Hres.
  - destruct (ladybug _) as [[b] | e]; cbn in Hres; [| discriminate].
    injection Hres as <-. constructor.
  - destruct (ladybug _) as [[b] | e]; cbn in Hres; [| discriminate].
    injection Hres as <-. constructor.
  - destruct (ladybug _) as [[b] | e]; cbn in Hres; [| discriminate].
    injection Hres as <-. constructor.
  - injection Hres as Hres. eapply Hmap, Hres.
Qed.

(** [getPlayer] and [getClub] wrap the body of the response as it is. *)
Lemma single_body_is_wrapped tag r raw :
  ladybug r = Js.Resolved {| body := raw |} →
  (calls (getPlayer ladybug this tag) = [r] →
   result (getPlayer ladybug this tag)
   = Js.Resolved (APlayer {| player_client := this; player_data := raw |}))
  ∧ (calls (getClub ladybug this tag) = [r] →
     result (getClub ladybug this tag)
     = Js.Resolved (AClub {| club_client := this; club_data := raw |})).
Proof.
  intros Hbody. unfold getPlayer, getClub.
  destruct (negb _); cbn; split; intros Hsent; try discriminate;
    injection Hsent as <-; rewrite Hbody; reflexivity.
Qed.

End Mapping.



(** C9: every player and club in what a public method resolves to refers
    back to the client the method was called on; and the player that
    [getPlayer] resolves to (the club, for [getClub]) wraps the very body
    that the transport returned for the request. *)
Theorem objects_refer_to_their_client ladybug this call v :
  result (invoke ladybug this call) = Js.Return (Js.Resolved v) →
  Forall (λ c, c = this) (back_references v)
  ∧ ∀ tag r raw,
      calls (invoke ladybug this call) = [r] →
      ladybug r = Js.Resolved {| body := raw |} →
      (call = GetPlayer tag → v = APlayer {| player_client := this; player_data := raw |})
      ∧ (call = GetClub tag → v = AClub {| club_client := this; club_data := raw |}).
Proof.
  intros Hres. split; [by eapply resolved_back_references |].
  intros tag r raw Hsent Hbody.
  destruct (single_body_is_wrapped ladybug this tag r raw Hbody) as [Hplayer Hclub].
  split; intros ->.
  - change (Js.Return (result (getPlayer ladybug this tag)) = Js.Return (Js.Resolved v))
      in Hres.
    rewrite (Hplayer Hsent) in Hres. by injection Hres.
  - change (Js.Return (result (getClub ladybug this tag)) = Js.Return (Js.Resolved v))
      in Hres.
    rewrite (Hclub Hsent) in Hres. by injection Hres.
Qed.

Lemma objects_refer_to_their_client_witness :
  result (invoke (respond (Js.Obj [("tag", Js.Str "#2PP")])) sample_client (GetPlayer "2pp"))
  = Js.Return (Js.Resolved (APlayer (new_Player sample_client (Js.Obj [("tag", Js.Str "#2PP")]))))
  ∧ Forall (λ c, c = sample_client)
      (back_references (APlayer (new_Player sample_client (Js.Obj [("tag", Js.Str "#2PP")]))))
  ∧ APlayer (new_Player sample_client (Js.Obj [("tag", Js.Str "#2PP")]))
    = APlayer {| player_client := sample_client;
                 player_data := Js.Obj [("tag", Js.Str "#2PP")] |}.
Proof.
  split; [reflexivity |].
  destruct (objects_refer_to_their_client (respond (Js.Obj [("tag", Js.Str "#2PP")]))
              sample_client (GetPlayer "2pp")
              (APlayer (new_Player sample_client (Js.Obj [("tag", Js.Str "#2PP")])))
              eq_refl) as [Hrefs Hwraps].
  split; [exact Hrefs |].
  destruct (Hwraps "2pp"
              {| url := "https://brawlapi.cf/api/player";
                 query := {[ "tag" := Js.Str "2PP" ]};
                 headers := {[ "Authorization" := Js.Str "secret" ]} |}
              (Js.Obj [("tag", Js.Str "#2PP")]) eq_refl eq_refl) as [Hplayer _].
  exact (Hplayer eq_refl).
Defined.

(** *** The tag normalizer *)

Section Tags.

Import TagNormalizer.

Lemma all_chars_map_chars p f s :
  all_chars p (map_chars f s) = all_chars (λ c, p (f c)) s.
Proof. induction s as [| c r IH]; cbn; [reflexivity | by rewrite IH]. Qed.

Lemma map_chars_fixed f s :
  all_chars (λ c, bool_decide (f c = c)) s = true → map_chars f s = s.
Proof.
  induction s as [| c r IH]; cbn; [reflexivity |].
  intros [Hc Hr]%andb_prop. apply bool_decide_eq_true in Hc. by rewrite Hc, IH.
Qed.

Lemma all_chars_impl (p q : ascii → bool) s :
  (∀ c, p c = true → q c = true) → all_chars p s = true → all_chars q s = true.
Proof.
  intros Hpq. induction s as [| c r IH]; cbn; [reflexivity |].
  intros [Hc Hr]%andb_prop. by rewrite (Hpq c Hc), IH.
Qed.

(** The characters accepted in writing are those that case-folding and
    the O-to-0 rewriting send into the alphabet. *)
Lemma accepted_char_folds c :
  accepted_char c = in_alphabet (o_to_zero (to_upper c)).
Proof.
  destruct c as [[] [] [] [] [] [] [] []]; reflexivity.
Qed.

(** Case-folding and rewriting leave a character of the alphabet alone,
    and [#] is none of them. *)
Lemma in_alphabet_fixed c :
  in_alphabet c = true →
  o_to_zero (to_upper c) = c ∧ to_upper c = c ∧ o_to_zero c = c ∧ Ascii.eqb c "#" = false.
Proof.
  destruct c as [[] [] [] [] [] [] [] []]; cbn; intros H;
    first [discriminate H | repeat split].
Qed.

Lemma accepted_alphabet s :
  accepted s = all_chars in_alphabet (clean s).
Proof.
  unfold accepted, clean. rewrite !all_chars_map_chars.
  induction (strip_hash s) as [| c r IH]; [reflexivity |].
  change (accepted_char c && all_chars accepted_char r
          = in_alphabet (o_to_zero (to_upper c))
            && all_chars (λ c, in_alphabet (o_to_zero (to_upper c))) r).
  by rewrite accepted_char_folds, IH.
Qed.

(** On a string of the alphabet, [clean] changes nothing. *)
Lemma clean_fixed s :
  all_chars in_alphabet s = true → clean s = s.
Proof.
  intros Hs. unfold clean.
  assert (Hstrip : strip_hash s = s).
  { destruct s as [| c r]; cbn in *; [reflexivity |].
    apply andb_prop in Hs as [Hc _].
    by destruct (in_alphabet_fixed c Hc) as (_ & _ & _ & ->). }
  rewrite Hstrip.
  rewrite (map_chars_fixed to_upper), (map_chars_fixed o_to_zero); trivial.
  - eapply all_chars_impl, Hs. intros c Hc. apply bool_decide_eq_true.
    by destruct (in_alphabet_fixed c Hc) as (_ & _ & -> & _).
  - eapply all_chars_impl, Hs. intros c Hc. apply bool_decide_eq_true.
    by destruct (in_alphabet_fixed c Hc) as (_ & -> & _ & _).
Qed.


(** What [clean] does to any string: one leading [#] goes, the length is
    otherwise kept, and neither a lower-case letter nor an O is left. *)
Lemma clean_shape s :
  String.length (clean s) = String.length (strip_hash s)
  ∧ all_chars (λ c, negb (Js.between 97 122 c) && negb (Ascii.eqb c "O")) (clean s) = true
  ∧ (∀ r, strip_hash (String "#" r) = r)
  ∧ (∀ c r, c ≠ "#"%char → strip_hash (String c r) = String c r).
Proof.
  split; [| split; [| split]].
  - unfold clean. induction (strip_hash s) as [| c r IH]; cbn; [reflexivity | by rewrite IH].
  - unfold clean. rewrite !all_chars_map_chars.
    induction (strip_hash s) as [| c r IH]; cbn; [reflexivity |].
    rewrite IH, andb_true_r.
    destruct c as [[] [] [] [] [] [] [] []]; reflexivity.
  - reflexivity.
  - intros c r Hc. cbn. by destruct (Ascii.eqb_spec c "#").
Qed.

End Tags.

(** C7 as stated fails at the empty string: it consists of accepted
    characters only (it has none), and [validate] refuses it. *)
Lemma empty_string_is_accepted_but_invalid :
  accepted "" = true ∧ TagNormalizer.validate "" = false.
Proof. split; reflexivity. Qed.

(** C7, amended: a non-empty string that consists solely of the accepted
    alphabet, once one leading [#] is stripped, letters are upper-cased and
    O is read as 0, is valid; its cleaned form lies in the alphabet and is
    left as it is by [clean], so [clean] is idempotent on it. *)
Theorem accepted_tags_validate_and_clean_once s :
  s ≠ "" →
  accepted s = true →
  TagNormalizer.validate s = true
  ∧ TagNormalizer.all_chars TagNormalizer.in_alphabet (TagNormalizer.clean s) = true
  ∧ TagNormalizer.clean (TagNormalizer.clean s) = TagNormalizer.clean s.
Proof.
  intros Hne Hacc. rewrite accepted_alphabet in Hacc.
  split; [| split]; trivial.
  - unfold TagNormalizer.validate. rewrite Hacc, andb_true_r.
    destruct s; [by destruct Hne | reflexivity].
  - by apply clean_fixed.
Qed.

Lemma accepted_tags_witness :
  TagNormalizer.validate "#2oPy8" = true
  ∧ TagNormalizer.clean "#2oPy8" = "20PY8"
  ∧ TagNormalizer.clean (TagNormalizer.clean "#2oPy8") = TagNormalizer.clean "#2oPy8".
Proof.
  destruct (accepted_tags_validate_and_clean_once "#2oPy8") as (Hvalid & _ & Hidem);
    [discriminate | reflexivity |].
  split; [exact Hvalid |]. split; [reflexivity | exact Hidem].
Defined.

(** *** The query *)




(** The same happens with the tag ["#"], which is valid and cleaned to the
    empty string. *)
Lemma hash_tag_sends_an_empty_value :
  calls (getPlayer (respond Js.Null) sample_client "#")
  = [ {| url := "https://brawlapi.cf/api/player";
         query := {[ "tag" := Js.Str "" ]};
         headers := {[ "Authorization" := Js.Str "secret" ]} |} ].
Proof. reflexivity. Qed.



(** ** Further properties of [src/Client.js] *)

(** *** Requests *)

(** X1: a call of a public method sends at most one request: there is no
    retry and no follow-up request. *)
Theorem one_request_per_call ladybug this call :
  (List.length (calls (invoke ladybug this call)) ≤ 1)%nat.
Proof. eapply at_most_one_request. reflexivity. Qed.

(** X2: the requests a call sends are fixed by the client and the
    arguments; what the transport answers has no part in them. *)
Theorem requests_do_not_depend_on_transport ladybug ladybug' this call :
  calls (invoke ladybug this call) = calls (invoke ladybug' this call).
Proof.
  destruct call; cbn; unfold getPlayer, getClub, getTopClubs;
    try (destruct (negb _)); try (destruct (count_and _ _) as [[|] | ?]);
    try reflexivity.
  unfold getTopPlayers. destruct options; cbn; try reflexivity.
  destruct (count_and _ _) as [[|] | ?]; reflexivity.
Qed.

(** *** Construction *)

Lemma new_Client_inv address options c :
  new_Client address options = Js.Return c →
  self c = address
  ∧ Js.truthy (token c) = true
  ∧ Js.get options "token" = Js.Return (token c).
Proof.
  unfold new_Client. destruct options; cbn; try discriminate.
  destruct (Js.truthy (default Js.Undefined (Js.assoc "token" props))) eqn:Ht;
    cbn; [| discriminate].
  intros [= <-]. cbn. auto.
Qed.

(** X3: a client that [new Client(options)] returns sits at the fresh
    address and holds [options.token], which is truthy: no client with a
    missing, empty or otherwise falsy token exists. *)
Theorem constructed_client_holds_a_truthy_token address options c :
  new_Client address options = Js.Return c →
  self c = address
  ∧ Js.truthy (token c) = true
  ∧ Js.get options "token" = Js.Return (token c).
Proof. apply new_Client_inv. Qed.

Lemma constructed_client_witness :
  new_Client 3 (Js.Obj [("token", Js.Str "secret")])
  = Js.Return {| self := 3; token := Js.Str "secret" |}
  ∧ Js.truthy (Js.Str "secret") = true.
Proof.
  split; [reflexivity |].
  apply (constructed_client_holds_a_truthy_token 3 (Js.Obj [("token", Js.Str "secret")])
           {| self := 3; token := Js.Str "secret" |}).
  reflexivity.
Defined.

(** X4: the token given at construction is the one the client hands to
    the transport: on every request that any method of a constructed
    client sends, the headers the client has set through [.set] are the
    single pair [Authorization], [options.token], the token unchanged. *)
Theorem token_is_set_as_authorization ladybug address options c call r :
  new_Client address options = Js.Return c →
  r ∈ calls (invoke ladybug c call) →
  ∃ t, Js.get options "token" = Js.Return t
       ∧ headers r = {[ "Authorization" := t ]}
       ∧ headers r !! "Authorization" = Some t.
Proof.
  intros Hnew Hin.
  destruct (new_Client_inv _ _ _ Hnew) as (_ & _ & Hget).
  destruct (request_shape ladybug c call r Hin) as [Hheaders _].
  exists (token c). rewrite Hheaders. split; [done |]. split; [done |].
  apply lookup_singleton_eq.
Qed.

Lemma token_is_set_witness :
  ∃ t, Js.get (Js.Obj [("token", Js.Str "secret")]) "token" = Js.Return t
       ∧ headers {| url := "https://brawlapi.cf/api/misc"; query := ∅;
                    headers := {[ "Authorization" := Js.Str "secret" ]} |}
         = {[ "Authorization" := t ]}
       ∧ headers {| url := "https://brawlapi.cf/api/misc"; query := ∅;
                    headers := {[ "Authorization" := Js.Str "secret" ]} |}
         !! "Authorization" = Some t.
Proof.
  apply (token_is_set_as_authorization (respond Js.Null) 1
           (Js.Obj [("token", Js.Str "secret")]) sample_client GetMisc).
  - reflexivity.
  - apply list_elem_of_singleton. reflexivity.
Defined.

(** X5: construction fails in two ways only: [new Client(null)] throws the
    engine's [TypeError] on reading [token] of [null] (the default [{}]
    replaces [undefined] alone), and every other failure is the
    [Error("Missing Authorization Token.")], raised when the options are
    omitted or their [token] is falsy, be it missing, empty or zero. *)
Theorem construction_failure_modes address options e :
  new_Client address options = Js.Throw e →
  (options = Js.Null ∧ ∃ msg, e = Js.TypeError msg)
  ∨ (e = ConfigurationError
     ∧ (options = Js.Undefined
        ∨ ∃ t, Js.get options "token" = Js.Return t ∧ Js.truthy t = false)).
Proof.
  unfold new_Client.
  destruct options; cbn;
    try (intros [= <-]; right; split; [reflexivity |];
         first [ by left | right; exists Js.Undefined; by split ]).
  - intros [= <-]. left. split; [reflexivity | by eexists].
  - destruct (Js.truthy (default Js.Undefined (Js.assoc "token" props))) eqn:Ht;
      cbn; [discriminate |].
    intros [= <-]. right. split; [reflexivity |]. right. eexists. by split.
Qed.

Lemma construction_failure_witness :
  new_Client 3 (Js.Obj [("token", Js.Str "")]) = Js.Throw ConfigurationError
  ∧ new_Client 3 Js.Null
    = Js.Throw (Js.TypeError "Cannot read properties of null (reading 'token')")
  ∧ ((Js.Obj [("token", Js.Str "")] = Js.Null ∧ ∃ msg, ConfigurationError = Js.TypeError msg)
     ∨ (ConfigurationError = ConfigurationError
        ∧ (Js.Obj [("token", Js.Str "")] = Js.Undefined
           ∨ ∃ t, Js.get (Js.Obj [("token", Js.Str "")]) "token" = Js.Return t
                  ∧ Js.truthy t = false))).
Proof.
  split; [reflexivity |]. split; [reflexivity |].
  apply (construction_failure_modes 3 (Js.Obj [("token", Js.Str "")]) ConfigurationError).
  reflexivity.
Defined.

(** *** What the methods make of a response *)

(** X6: [getEndpoints] asks for the API root with an empty query and reads
    [data.endpoints] off the body: with [data] an object it resolves to its
    [endpoints] ([undefined] when there is none), and with no [data] in the
    body the promise is rejected with the [TypeError] of reading
    [endpoints] of [undefined]. *)
Theorem getEndpoints_reads_data_endpoints ladybug this r props :
  calls (getEndpoints ladybug this) = [r] →
  ladybug r = Js.Resolved {| body := Js.Obj props |} →
  url r = "https://brawlapi.cf/api/"
  ∧ query r = ∅
  ∧ (∀ dprops, Js.assoc "data" props = Some (Js.Obj dprops) →
       result (getEndpoints ladybug this)
       = Js.Resolved (Json (default Js.Undefined (Js.assoc "endpoints" dprops))))
  ∧ (Js.assoc "data" props = None →
       ∃ msg, result (getEndpoints ladybug this) = Js.Rejected (Js.TypeError msg)).
Proof.
  intros Hsent Hbody. cbn in Hsent. injection Hsent as <-.
  split; [reflexivity |]. split; [reflexivity |].
  unfold getEndpoints. cbn. rewrite Hbody. cbn. split.
  - intros dprops ->. reflexivity.
  - intros ->. cbn. by eexists.
Qed.

Lemma getEndpoints_witness :
  result (getEndpoints
            (respond (Js.Obj [("data", Js.Obj [("endpoints", Js.Arr [Js.Str "player"])])]))
            sample_client)
  = Js.Resolved (Json (Js.Arr [Js.Str "player"]))
  ∧ ∃ msg, result (getEndpoints (respond (Js.Obj [])) sample_client)
           = Js.Rejected (Js.TypeError msg).
Proof.
  split.
  - destruct (getEndpoints_reads_data_endpoints
                (respond (Js.Obj [("data", Js.Obj [("endpoints", Js.Arr [Js.Str "player"])])]))
                sample_client
                {| url := "https://brawlapi.cf/api/"; query := ∅;
                   headers := {[ "Authorization" := Js.Str "secret" ]} |}
                [("data", Js.Obj [("endpoints", Js.Arr [Js.Str "player"])])]
                eq_refl eq_refl) as (_ & _ & Hdata & _).
    apply (Hdata [("endpoints", Js.Arr [Js.Str "player"])]). reflexivity.
  - destruct (getEndpoints_reads_data_endpoints (respond (Js.Obj [])) sample_client
                {| url := "https://brawlapi.cf/api/"; query := ∅;
                   headers := {[ "Authorization" := Js.Str "secret" ]} |}
                [] eq_refl eq_refl) as (_ & _ & _ & Hnone).
    apply Hnone. reflexivity.
Defined.

(** X7: when the request of [getTopPlayers], [getTopClubs] or [clubSearch]
    is answered with a body that is no array (an error object, [null], a
    string), the method neither throws nor resolves: its promise is
    rejected with the [TypeError] of calling [map] on that body. *)
Theorem non_array_body_rejects_list_methods ladybug this call r b :
  is_list_call call = true →
  calls (invoke ladybug this call) = [r] →
  ladybug r = Js.Resolved {| body := b |} →
  (∀ items, b ≠ Js.Arr items) →
  ∃ msg, result (invoke ladybug this call) = Js.Return (Js.Rejected (Js.TypeError msg)).
Proof.
  intros Hlist Hsent Hbody Hnot.
  destruct call; try discriminate Hlist; cbn in *; unfold getTopClubs in *.
  - destruct (getTopPlayers_cases ladybug this options)
      as [(_ & e' & Heq) | (count & brawler & Heq)];
      rewrite Heq in *; [discriminate |].
    destruct (count_and _ _) as [[|] | ?]; cbn in *; [discriminate | | discriminate].
    injection Hsent as <-. rewrite Hbody. cbn.
    destruct b; cbn; try (by eexists). by destruct (Hnot items).
  - destruct (count_and _ _) as [[|] | ?]; cbn in *; [discriminate | | discriminate].
    injection Hsent as <-. rewrite Hbody. cbn.
    destruct b; cbn; try (by eexists). by destruct (Hnot items).
  - injection Hsent as <-. rewrite Hbody. cbn.
    destruct b; cbn; try (by eexists). by destruct (Hnot items).
Qed.

Lemma non_array_body_witness :
  ∃ msg, result (invoke (respond (Js.Obj [("error", Js.Str "Unauthorized")])) sample_client
                   (ClubSearch (Js.Str "pollen")))
         = Js.Return (Js.Rejected (Js.TypeError msg)).
Proof.
  apply (non_array_body_rejects_list_methods
           (respond (Js.Obj [("error", Js.Str "Unauthorized")])) sample_client
           (ClubSearch (Js.Str "pollen"))
           {| url := "https://brawlapi.cf/api/clubSearch";
              query := {[ "query" := Js.Str "pollen" ]};
              headers := {[ "Authorization" := Js.Str "secret" ]} |}
           (Js.Obj [("error", Js.Str "Unauthorized")])).
  - reflexivity.
  - reflexivity.
  - reflexivity.
  - discriminate.
Defined.

(** X8: [about], [getMisc], [getUpcomingEvents] and [getCurrentEvents]
    check nothing and map nothing: each sends exactly one request, and
    whatever body the transport returns for it, [null] included, is what
    the method resolves to. *)
Theorem passthrough_methods_return_the_body ladybug this call :
  is_passthrough_call call = true →
  ∃ r, calls (invoke ladybug this call) = [r]
       ∧ ∀ b, ladybug r = Js.Resolved {| body := b |} →
              result (invoke ladybug this call) = Js.Return (Js.Resolved (Json b)).
Proof.
  intros Hpass.
  destruct call; try discriminate Hpass; cbn;
    (eexists; split; [reflexivity |]; intros b Hbody; by rewrite Hbody).
Qed.

Lemma passthrough_methods_witness :
  ∃ r, calls (invoke (respond Js.Null) sample_client GetCurrentEvents) = [r]
       ∧ ∀ b, respond Js.Null r = Js.Resolved {| body := b |} →
              result (invoke (respond Js.Null) sample_client GetCurrentEvents)
              = Js.Return (Js.Resolved (Json b)).
Proof.
  apply (passthrough_methods_return_the_body (respond Js.Null) sample_client GetCurrentEvents).
  reflexivity.
Defined.

(** *** How a call can fail *)







(** The callbacks of the methods throw nothing but [TypeError]s. *)
Lemma array_map_throws_TypeError {B} (f : Js.Val → B) res e :
  array_map f res = Js.Throw e → ∃ msg, e = Js.TypeError msg.
Proof. destruct res; cbn; intros [= <-]; by eexists. Qed.

Lemma get_throws_TypeError v k e :
  Js.get v k = Js.Throw e → ∃ msg, e = Js.TypeError msg.
Proof. destruct v; cbn; intros [= <-]; by eexists. Qed.

(** X11: a promise returned by a public method is rejected for one of
    three reasons only.  Either nothing was sent and the error is the
    [Error("Invalid Tag.")] or [TypeError("Count must be a number.")] of the
    argument check; or the one request was sent and the error is the very
    error the transport rejected it with; or the transport resolved it and
    the error is a [TypeError] raised on reading the body. *)
Theorem why_a_call_rejects ladybug this call e :
  result (invoke ladybug this call) = Js.Return (Js.Rejected e) →
  (calls (invoke ladybug this call) = []
   ∧ (e = InvalidTagError ∨ e = InvalidArgumentError))
  ∨ ∃ r, calls (invoke ladybug this call) = [r]
         ∧ (ladybug r = Js.Rejected e
            ∨ ∃ b msg, ladybug r = Js.Resolved b ∧ e = Js.TypeError msg).
Proof.
  assert (Hlist : ∀ (A : Type) (wrap : list A → Value) (f : Js.Val → A) r,
             Js.then_ (Js.then_ (ladybug r) (λ res, Js.Return (body res)))
               (λ res, wrap <$> array_map f res) = Js.Rejected e →
             ladybug r = Js.Rejected e
             ∨ ∃ b msg, ladybug r = Js.Resolved b ∧ e = Js.TypeError msg).
  { intros A wrap f r H. destruct (ladybug r) as [[b] | e']; cbn in H.
    - right. destruct (array_map f b) eqn:Hmap; cbn in H; [discriminate |].
      injection H as ->. apply array_map_throws_TypeError in Hmap as [msg ->]. by eexists _, _.
    - left. congruence. }
  intros Hrej.
  destruct call; cbn in Hrej |- *; unfold getPlayer, getClub, getTopClubs in Hrej |- *;
    try (destruct (negb _); cbn in Hrej |- *;
         [injection Hrej as <-; left; split; [reflexivity | by left] |]);
    try (destruct (count_and _ _) as [[|] | ?]; cbn in Hrej |- *;
         [injection Hrej as <-; left; split; [reflexivity | by right] | | discriminate]).
  - right. eexists. split; [reflexivity |].
    destruct (ladybug _) as [[b] | e']; cbn in Hrej; [right | left; congruence].
    destruct (Js.get b "data") as [d | e1] eqn:Hd; cbn in Hrej.
    + destruct (Js.get d "endpoints") as [x | e2] eqn:Hx; cbn in Hrej; [discriminate |].
      injection Hrej as ->. apply get_throws_TypeError in Hx as [msg ->]. by eexists _, _.
    + injection Hrej as ->. apply get_throws_TypeError in Hd as [msg ->]. by eexists _, _.
  - right. eexists. split; [reflexivity |].
    destruct (ladybug _) as [[b] | e']; cbn in Hrej; [discriminate | left; congruence].
  - right. eexists. split; [reflexivity |].
    destruct (ladybug _) as [[b] | e']; cbn in Hrej; [discriminate | left; congruence].
  - right. eexists. split; [reflexivity |].
    destruct (ladybug _) as [[b] | e']; cbn in Hrej; [discriminate | left; congruence].
  - destruct (getTopPlayers_cases ladybug this options)
      as [(_ & e' & Heq) | (count & brawler & Heq)];
      rewrite Heq in Hrej |- *; [discriminate |].
    destruct (count_and _ _) as [[|] | ?]; cbn in Hrej |- *; [| | discriminate].
    + injection Hrej as <-. left. split; [reflexivity | by right].
    + right. eexists. split; [reflexivity |]. injection Hrej as Hrej. eapply Hlist, Hrej.
  - right. eexists. split; [reflexivity |]. injection Hrej as Hrej. eapply Hlist, Hrej.
  - right. eexists. split; [reflexivity |].
    destruct (ladybug _) as [[b] | e']; cbn in Hrej; [discriminate | left; congruence].
  - right. eexists. split; [reflexivity |].
    destruct (ladybug _) as [[b] | e']; cbn in Hrej; [discriminate | left; congruence].
  - right. eexists. split; [reflexivity |].
    destruct (ladybug _) as [[b] | e']; cbn in Hrej; [discriminate | left; congruence].
  - right. eexists. split; [reflexivity |]. injection Hrej as Hrej. eapply Hlist, Hrej.
Qed.

Lemma why_a_call_rejects_witness :
  result (invoke (fail_with network_down) sample_client GetMisc)
  = Js.Return (Js.Rejected network_down)
  ∧ ((calls (invoke (fail_with network_down) sample_client GetMisc) = []
      ∧ (network_down = InvalidTagError ∨ network_down = InvalidArgumentError))
     ∨ ∃ r, calls (invoke (fail_with network_down) sample_client GetMisc) = [r]
            ∧ (fail_with network_down r = Js.Rejected network_down
               ∨ ∃ b msg, fail_with network_down r = Js.Resolved b
                          ∧ network_down = Js.TypeError msg)).
Proof.
  split; [reflexivity |].
  apply (why_a_call_rejects (fail_with network_down) sample_client GetMisc network_down).
  reflexivity.
Defined.

(** *** The query of the leaderboard methods *)

(** X12: the query that [getTopPlayers(options)] sends holds [count] and
    [brawler] exactly when the option is truthy, with the value as the
    caller gave it (a numeric string stays a string, the brawler is not
    checked at all), and no other parameter: further properties of
    [options] are ignored. *)
Theorem leaderboard_query_is_count_and_brawler ladybug this props r :
  calls (getTopPlayers ladybug this (Js.Obj props)) = [r] →
  query r !! "count"
  = (if Js.truthy (default Js.Undefined (Js.assoc "count" props))
     then Some (default Js.Undefined (Js.assoc "count" props)) else None)
  ∧ query r !! "brawler"
    = (if Js.truthy (default Js.Undefined (Js.assoc "brawler" props))
       then Some (default Js.Undefined (Js.assoc "brawler" props)) else None)
  ∧ ∀ k, k ≠ "count" → k ≠ "brawler" → query r !! k = None.
Proof.
  unfold getTopPlayers. cbn.
  destruct (count_and _ _) as [[|] | ?]; cbn; [discriminate | | discriminate].
  intros [= <-]. cbn.
  split; [| split].
  - rewrite set_if_truthy_lookup_ne by discriminate.
    rewrite set_if_truthy_lookup_eq. by destruct (Js.truthy _).
  - rewrite set_if_truthy_lookup_eq. destruct (Js.truthy _); [reflexivity |].
    by rewrite set_if_truthy_lookup_ne.
  - intros k Hcount Hbrawler. by rewrite !set_if_truthy_lookup_ne.
Qed.

Lemma leaderboard_query_witness :
  calls (getTopPlayers (respond (Js.Arr [])) sample_client
           (Js.Obj [("count", Js.Str "20"); ("brawler", Js.Str "shelly");
                    ("page", Js.Num (Js.of_Z 2))]))
  = [ {| url := "https://brawlapi.cf/api//leaderboards/players";
         query := {[ "count" := Js.Str "20"; "brawler" := Js.Str "shelly" ]};
         headers := {[ "Authorization" := Js.Str "secret" ]} |} ]
  ∧ ({[ "count" := Js.Str "20"; "brawler" := Js.Str "shelly" ]} : gmap string Js.Val)
    !! "page" = None.
Proof.
  assert (Hsent :
    calls (getTopPlayers (respond (Js.Arr [])) sample_client
             (Js.Obj [("count", Js.Str "20"); ("brawler", Js.Str "shelly");
                      ("page", Js.Num (Js.of_Z 2))]))
    = [ {| url := "https://brawlapi.cf/api//leaderboards/players";
           query := {[ "count" := Js.Str "20"; "brawler" := Js.Str "shelly" ]};
           headers := {[ "Authorization" := Js.Str "secret" ]} |} ]).
  { vm_compute. reflexivity. }
  split; [exact Hsent |].
  destruct (leaderboard_query_is_count_and_brawler (respond (Js.Arr [])) sample_client
              [("count", Js.Str "20"); ("brawler", Js.Str "shelly");
               ("page", Js.Num (Js.of_Z 2))] _ Hsent) as (_ & _ & Hother).
  apply Hother; discriminate.
Defined.

(** *** Where requests go *)

(** X13: a request sent by any method other than the two leaderboard ones
    goes to [https://brawlapi.cf/api/] followed by one of the nine
    endpoint names, and to nothing else. *)
Theorem requests_go_to_known_endpoints ladybug this call r :
  (∀ options, call ≠ GetTopPlayers options) →
  (∀ count, call ≠ GetTopClubs count) →
  r ∈ calls (invoke ladybug this call) →
  ∃ endpoint, endpoint ∈ consumed_endpoints
              ∧ url r = "https://brawlapi.cf/api/" +:+ endpoint.
Proof.
  intros Hplayers Hclubs Hin.
  destruct (request_shape ladybug this call r Hin)
    as (_ & endpoint & Hurl & [Hknown | [[[o ->] _] | [[c ->] _]]]).
  - by exists endpoint.
  - by destruct (Hplayers o).
  - by destruct (Hclubs c).
Qed.

Lemma requests_go_to_known_endpoints_witness :
  ∃ endpoint, endpoint ∈ consumed_endpoints
              ∧ url {| url := "https://brawlapi.cf/api/events";
                       query := {[ "type" := Js.Str "upcoming" ]};
                       headers := {[ "Authorization" := Js.Str "secret" ]} |}
                = "https://brawlapi.cf/api/" +:+ endpoint.
Proof.
  apply (requests_go_to_known_endpoints (respond Js.Null) sample_client GetUpcomingEvents).
  - discriminate.
  - discriminate.
  - apply list_elem_of_singleton. reflexivity.
Defined.

(** *** How a call succeeds *)

(** X14: a public method resolves only on a response: when its promise is
    resolved, exactly one request was sent, the transport resolved it, and
    the value is of the kind the method documents ([getTopPlayers] yields
    players, [getTopClubs] and [clubSearch] clubs, and so on). *)
Theorem a_call_resolves_on_a_response ladybug this call v :
  result (invoke ladybug this call) = Js.Return (Js.Resolved v) →
  result_kind call v = true
  ∧ ∃ r b, calls (invoke ladybug this call) = [r] ∧ ladybug r = Js.Resolved b.
Proof.
  assert (Hlist : ∀ (A : Type) (wrap : list A → Value) (f : Js.Val → A) r,
             Js.then_ (Js.then_ (ladybug r) (λ res, Js.Return (body res)))
               (λ res, wrap <$> array_map f res) = Js.Resolved v →
             (∃ l, v = wrap l) ∧ ∃ b, ladybug r = Js.Resolved b).
  { intros A wrap f r H. destruct (ladybug r) as [[b] | e']; cbn in H; [| discriminate].
    destruct (array_map f b) eqn:Hmap; cbn in H; [| discriminate].
    injection H as <-. split; by eexists. }
  intros Hres.
  destruct call; cbn in Hres |- *; unfold getPlayer, getClub, getTopClubs in Hres |- *;
    try (destruct (negb _); cbn in Hres |- *; [discriminate |]);
    try (destruct (count_and _ _) as [[|] | ?]; cbn in Hres |- *; [discriminate | | discriminate]).
  - destruct (ladybug _) as [[b] | e'] eqn:Hl; cbn in Hres; [| discriminate].
    destruct (Js.get b "data") as [d | e1]; cbn in Hres; [| discriminate].
    destruct (Js.get d "endpoints") as [x | e2]; cbn in Hres; [| discriminate].
    injection Hres as <-. split; [reflexivity |]. by eexists _, _.
  - destruct (ladybug _) as [[b] | e'] eqn:Hl; cbn in Hres; [| discriminate].
    injection Hres as <-. split; [reflexivity |]. by eexists _, _.
  - destruct (ladybug _) as [[b] | e'] eqn:Hl; cbn in Hres; [| discriminate].
    injection Hres as <-. split; [reflexivity |]. by eexists _, _.
  - destruct (ladybug _) as [[b] | e'] eqn:Hl; cbn in Hres; [| discriminate].
    injection Hres as <-. split; [reflexivity |]. by eexists _, _.
  - destruct (getTopPlayers_cases ladybug this options)
      as [(_ & e' & Heq) | (count & brawler & Heq)];
      rewrite Heq in Hres |- *; [discriminate |].
    destruct (count_and _ _) as [[|] | ?]; cbn in Hres |- *; [discriminate | | discriminate].
    injection Hres as Hres. apply Hlist in Hres as [[l ->] [b Hb]].
    split; [reflexivity |]. by eexists _, _.
  - injection Hres as Hres. apply Hlist in Hres as [[l ->] [b Hb]].
    split; [reflexivity |]. by eexists _, _.
  - destruct (ladybug _) as [[b] | e'] eqn:Hl; cbn in Hres; [| discriminate].
    injection Hres as <-. split; [reflexivity |]. by eexists _, _.
  - destruct (ladybug _) as [[b] | e'] eqn:Hl; cbn in Hres; [| discriminate].
    injection Hres as <-. split; [reflexivity |]. by eexists _, _.
  - destruct (ladybug _) as [[b] | e'] eqn:Hl; cbn in Hres; [| discriminate].
    injection Hres as <-. split; [reflexivity |]. by eexists _, _.
  - injection Hres as Hres. apply Hlist in Hres as [[l ->] [b Hb]].
    split; [reflexivity |]. by eexists _, _.
Qed.

Lemma a_call_resolves_witness :
  result (invoke (respond (Js.Arr [Js.Obj [("tag", Js.Str "A")]])) sample_client
            (GetTopPlayers Js.Undefined))
  = Js.Return (Js.Resolved (Players [new_Player sample_client (Js.Obj [("tag", Js.Str "A")])]))
  ∧ result_kind (GetTopPlayers Js.Undefined)
      (Players [new_Player sample_client (Js.Obj [("tag", Js.Str "A")])]) = true.
Proof.
  split; [reflexivity |].
  apply (a_call_resolves_on_a_response
           (respond (Js.Arr [Js.Obj [("tag", Js.Str "A")]])) sample_client
           (GetTopPlayers Js.Undefined)
           (Players [new_Player sample_client (Js.Obj [("tag", Js.Str "A")])])).
  reflexivity.
Defined.
